(** * Farm Engine: the indexing-status UI helper and the index engine contract

    Two parts:
    - [CheckIndexing]: a shallow embedding of [static/js/check_indexing.js],
      the browser script that asks the [/indexing] endpoint whether the table
      is building its index.
    - [Engine]: the table / index-engine contract (row flags, CSV read-only
      index, indexing coordinator).  *)

From stdpp Require Import base option strings list sorting gmap.
From Stdlib Require Import ZArith QArith Ascii.

Local Open Scope string_scope.
Local Open Scope list_scope.
Local Open Scope Z_scope.

(* ===================================================================== *)
(** ** static/js/check_indexing.js *)
(* ===================================================================== *)

Module CheckIndexing.

(** What a timer runs when it is due: the script's function
    [checkIndexing], or a handler that is not the script's ([Foreign]: a
    function of the page, or a value that is not a function, which the host
    turns into a string and compiles as a script). *)
Inductive Callback := CheckIndexingFn | Foreign.

(** The JavaScript values that the model follows in the bindings the
    handler reads: [undefined], a finite number, a function, and an element
    of the document (what the global object gives for the id of an
    element). *)
Inductive Value :=
| VUndefined
| VNumber (q : Q)
| VFunction (f : Callback)
| VElement (id : string).

Inductive JsError :=
| ReferenceError (ident : string)
| TypeError (msg : string).

(** An [XMLHttpRequest] after [open(method, url, async)] and [send()].
    Every request created by the script carries the same [onload]
    handler, so the handler is not stored. *)
Record Request := mkRequest {
  req_method : string;
  req_url : string;
  req_async : bool
}.

(** What the script can see and change in the browser.
    - [document]: element id to the tokens of its [classList]; an id that
      is not in the map has no element ([getElementById] gives [null]);
    - [page_globals]: the properties that the rest of the page has put on
      the global object (variables and functions of other scripts,
      assignments to [window], names of frames and of elements that carry
      a [name] attribute), as they are when a callback runs; the
      script's own declarations and the host API are not stored here, and a
      property named [checkIndexing] stands for an assignment made after
      the script was loaded, which replaces the script's function;
    - [alerts]: the messages passed to [alert], oldest first;
    - [timers]: the pending [setTimeout] calls, oldest first;
    - [requests]: every request sent so far, oldest first;
    - [pending]: the requests whose response has not arrived yet. *)
Record Browser := mkBrowser {
  document : gmap string (list string);
  page_globals : gmap string Value;
  alerts : list string;
  timers : list (Callback * Z);
  requests : list Request;
  pending : list Request
}.

Definition set_document (d : gmap string (list string)) (b : Browser) : Browser :=
  mkBrowser d (page_globals b) (alerts b) (timers b) (requests b) (pending b).
Definition set_alerts (a : list string) (b : Browser) : Browser :=
  mkBrowser (document b) (page_globals b) a (timers b) (requests b) (pending b).
Definition set_timers (t : list (Callback * Z)) (b : Browser) : Browser :=
  mkBrowser (document b) (page_globals b) (alerts b) t (requests b) (pending b).
Definition set_requests (r p : list Request) (b : Browser) : Browser :=
  mkBrowser (document b) (page_globals b) (alerts b) (timers b) r p.

(** Statements either complete normally or throw. *)
Inductive Completion (A : Type) :=
| Normal (a : A)
| Throw (e : JsError).
Arguments Normal {A} a.
Arguments Throw {A} e.

Definition JS (A : Type) : Type := Browser → Completion A * Browser.

Definition js_ret {A} (a : A) : JS A := λ b, (Normal a, b).
Definition js_throw {A} (e : JsError) : JS A := λ b, (Throw e, b).
Definition js_bind {A B} (m : JS A) (k : A → JS B) : JS B :=
  λ b, match m b with
       | (Normal a, b') => k a b'
       | (Throw e, b') => (Throw e, b')
       end.

#[global] Instance JS_ret : MRet JS := @js_ret.
#[global] Instance JS_bind : MBind JS := λ A B k m, js_bind m k.

(** *** Host API used by the script *)

(** [document.getElementById(id)]: a reference to the element (its id), or
    [null]. *)
Definition getElementById (id : string) : JS (option string) :=
  λ b, (Normal (if document b !! id is Some _ then Some id else None), b).

(** [el.classList] throws a [TypeError] when [el] is [null]. *)
Definition classList (el : option string) : JS string :=
  match el with
  | Some id => js_ret id
  | None => js_throw (TypeError "Cannot read properties of null (reading 'classList')")
  end.

(** [DOMTokenList]: an ordered set of tokens. *)
Definition tokens_contains (tok : string) (l : list string) : bool :=
  bool_decide (tok ∈ l).
Definition tokens_add (tok : string) (l : list string) : list string :=
  if tokens_contains tok l then l else l ++ [tok].
Definition tokens_remove (tok : string) (l : list string) : list string :=
  filter (λ t, t ≠ tok) l.

Definition on_tokens (id : string) (f : list string → list string) : JS unit :=
  λ b, (Normal (), set_document (alter f id (document b)) b).

Definition classList_contains (el : option string) (tok : string) : JS bool :=
  id ← classList el;
  (λ b, (Normal (tokens_contains tok (default [] (document b !! id))), b)) : JS bool.
Definition classList_add (el : option string) (tok : string) : JS unit :=
  id ← classList el; on_tokens id (tokens_add tok).
Definition classList_remove (el : option string) (tok : string) : JS unit :=
  id ← classList el; on_tokens id (tokens_remove tok).

Definition alert (msg : string) : JS unit :=
  λ b, (Normal (), set_alerts (alerts b ++ [msg]) b).

(** The host converts the timeout of [setTimeout] to a 32-bit signed
    integer: the number is truncated towards zero and taken modulo 2^32
    into the range from -2^31 to 2^31 - 1. *)
Definition to_long (q : Q) : Z :=
  let x := Z.quot (Qnum q) (Z.pos (Qden q)) in
  let m := x mod 2 ^ 32 in
  if decide (m < 2 ^ 31) then m else m - 2 ^ 32.

(** The timeout in milliseconds: the converted number, 0 when that is
    negative; a value that is not a number converts to NaN and counts as
    0.  The handler runs from a response event, not from a timer, so the
    minimum that the host imposes on deeply nested timers does not apply. *)
Definition timeout_of (v : Value) : Z :=
  match v with
  | VNumber q => Z.max 0 (to_long q)
  | _ => 0
  end.

Definition handler_of (v : Value) : Callback :=
  match v with
  | VFunction f => f
  | _ => Foreign
  end.

(** [setTimeout(handler, timeout)] adds a timer, whatever the handler
    is. *)
Definition setTimeout (handler : Value) (timeout : Value) : JS unit :=
  λ b, (Normal (),
        set_timers (timers b ++ [(handler_of handler, timeout_of timeout)]) b).

(** [new XMLHttpRequest()], [open] and [send] together. *)
Definition xhr_send (method url : string) (async : bool) : JS unit :=
  λ b, let r := mkRequest method url async in
       (Normal (), set_requests (requests b ++ [r]) (pending b ++ [r]) b).

(** *** The script *)

(** [const checkInterval = 1000;] *)
Definition checkInterval : Z := 1000.

(** The declarations of the script: the constant, a lexical binding that
    nothing can replace, and the function, a property of the global object
    that the page can assign to. *)
Definition script_constants : list (string * Value) :=
  [ ("checkInterval", VNumber (inject_Z checkInterval)) ].

Definition script_functions : list (string * Value) :=
  [ ("checkIndexing", VFunction CheckIndexingFn) ].

Definition script_scope : list (string * Value) :=
  script_constants ++ script_functions.

(** Resolution of an identifier that is used inside the [onload] handler
    (the handler's local [flash] and [checkIndexing]'s local [xhttp] are
    never read through this function): the script's constant first, then
    the properties the page has put on the global object, then the script's
    function, then the element of the document that has the name as its id
    (named access on the global object).  An identifier bound nowhere throws
    a [ReferenceError]. *)
Definition ident (name : string) : JS Value :=
  λ b, match list_to_map (M := gmap string Value) script_constants !! name with
       | Some v => (Normal v, b)
       | None =>
           match page_globals b !! name with
           | Some v => (Normal v, b)
           | None =>
               match list_to_map (M := gmap string Value) script_functions !! name with
               | Some v => (Normal v, b)
               | None =>
                   match document b !! name with
                   | Some _ => (Normal (VElement name), b)
                   | None => (Throw (ReferenceError name), b)
                   end
               end
           end
       end.

(** The branch of the handler's [if] / [else if] / [else]. *)
Inductive Branch := YesBranch | NoBranch | ErrorBranch.

Definition branch_of (responseText : string) : Branch :=
  if decide (responseText = "YES") then YesBranch
  else if decide (responseText = "NO") then NoBranch
  else ErrorBranch.

(** [setTimeout(checkIndexing, interval);]: the callee's arguments are
    evaluated left to right before the call. *)
Definition reschedule : JS unit :=
  f ← ident "checkIndexing";
  t ← ident "interval";
  setTimeout f t.

(** [xhttp.onload = function() { ... }], with [this.responseText] as the
    argument.  The first branch ends in [return]; the other two fall
    through to the statement after the [if]. *)
Definition onload (responseText : string) : JS unit :=
  flash ← getElementById "flash";
  match branch_of responseText with
  | YesBranch =>
      classList_remove flash "hidden"
      (* return; *)
  | NoBranch =>
      (c ← classList_contains flash "hidden";
       if (c : bool) then classList_add flash "hidden" else js_ret ());;
      (* keep checking until indexing has finished *)
      reschedule
  | ErrorBranch =>
      alert "There was an error trying to resume";;
      (* keep checking until indexing has finished *)
      reschedule
  end.

(** [function checkIndexing() { ... }] *)
Definition checkIndexing : JS unit :=
  xhr_send "GET" "/indexing" true.

(** The top level of the script: two declarations and a comment
    ([//setTimeout(checkIndexing, checkInterval);]); no statement runs. *)
Definition script : JS unit := js_ret ().

Definition exec {A} (m : JS A) (b : Browser) : Browser := snd (m b).
Definition result {A} (m : JS A) (b : Browser) : Completion A := fst (m b).

(** *** The event loop *)

(** A timer fires, or the response of the oldest pending request
    arrives.  The browser state keeps no clock, so which pending timer is
    due first is not determined by it: the timer that fires is the oldest
    pending one ([TimerFires]), or a later one that is due before it
    ([TimerOvertakes i], the timer at position [i + 1]), which takes a
    timeout shorter than that of every older pending timer.  An exception
    thrown by a callback is reported and the loop goes on with the state the
    callback left.  What a handler that is not the script's does is not
    followed: such a step is outside the runs of the model. *)
Inductive Event :=
| TimerFires
| TimerOvertakes (i : nat)
| ResponseArrives (body : string).

Definition call (f : Callback) : option (JS unit) :=
  match f with
  | CheckIndexingFn => Some checkIndexing
  | Foreign => None
  end.

Definition fire (f : Callback) (b : Browser) : option Browser :=
  match call f with
  | Some m => Some (exec m b)
  | None => None
  end.

Definition step (e : Event) (b : Browser) : option Browser :=
  match e with
  | TimerFires =>
      match timers b with
      | [] => None
      | (f, _) :: ts => fire f (set_timers ts b)
      end
  | TimerOvertakes i =>
      match timers b !! S i with
      | Some (f, d) =>
          if decide (Forall (λ t, d < t.2) (take (S i) (timers b)))
          then fire f (set_timers (delete (S i) (timers b)) b)
          else None
      | None => None
      end
  | ResponseArrives body =>
      match pending b with
      | [] => None
      | _ :: rs => Some (exec (onload body) (set_requests (requests b) rs b))
      end
  end.

Fixpoint run (evs : list Event) (b : Browser) : option Browser :=
  match evs with
  | [] => Some b
  | e :: evs' =>
      match step e b with
      | Some b' => run evs' b'
      | None => None
      end
  end.

(** A page with the indicator [<div id="flash" class="hidden">], before
    the script is loaded. *)
Definition page (classes : list string) : Browser :=
  mkBrowser {[ "flash" := classes ]} ∅ [] [] [] [].

(** *** Counting along a run *)

(** The request that [checkIndexing] opens and sends. *)
Definition poll_request : Request := mkRequest "GET" "/indexing" true.

(** The message of the handler's [alert]. *)
Definition error_alert : string := "There was an error trying to resume".

Definition is_timer (e : Event) : bool :=
  match e with
  | TimerFires | TimerOvertakes _ => true
  | ResponseArrives _ => false
  end.


(** A response whose body is neither "YES" nor "NO". *)
Definition is_unknown (e : Event) : bool :=
  match e with
  | TimerFires | TimerOvertakes _ => false
  | ResponseArrives body =>
      match branch_of body with
      | ErrorBranch => true
      | _ => false
      end
  end.

Definition count_events (p : Event → bool) (evs : list Event) : nat :=
  length (List.filter p evs).

(** What the two identifiers of the rescheduling statement resolve to in a
    browser state: [checkIndexing] to the script's function unless the page
    has assigned to it, [interval] to a global of the page, else to the
    element with that id, else to nothing. *)
Definition bound_handler (b : Browser) : Value :=
  default (VFunction CheckIndexingFn) (page_globals b !! "checkIndexing").

Definition bound_interval (b : Browser) : option Value :=
  match page_globals b !! "interval" with
  | Some v => Some v
  | None => if document b !! "interval" is Some _ then Some (VElement "interval") else None
  end.

(** The ways the rescheduling statement can end: [interval] resolves to
    nothing, or a timer is added. *)
Inductive Rescheduled (b : Browser) : Completion () * Browser → Prop :=
| Unresolved :
    page_globals b !! "interval" = None → document b !! "interval" = None →
    Rescheduled b (Throw (ReferenceError "interval"), b)
| Scheduled f t :
    Rescheduled b (Normal (), set_timers (timers b ++ [(f, t)]) b).

(** All the ways the handler can end. *)
Inductive Outcome (body : string) (b : Browser) : Completion () * Browser → Prop :=
| ShownAndReturned cl :
    body = "YES" → document b !! "flash" = Some cl →
    Outcome body b
      (Normal (), set_document (<["flash" := tokens_remove "hidden" cl]> (document b)) b)
| NoElement msg :
    body = "YES" ∨ body = "NO" → document b !! "flash" = None →
    Outcome body b (Throw (TypeError msg), b)
| NoThenRescheduled r :
    body = "NO" → is_Some (document b !! "flash") →
    Rescheduled b r → Outcome body b r
| AlertThenRescheduled r :
    body ≠ "YES" → body ≠ "NO" →
    Rescheduled (set_alerts (alerts b ++ [error_alert]) b) r → Outcome body b r.

(** A page on which one call of [checkIndexing] has been scheduled from
    outside the script. *)
Definition waiting_page : Browser :=
  mkBrowser {[ "flash" := ["alert"; "hidden"] ]} ∅ [] [(CheckIndexingFn, 1000)] [] [].

(** A page that binds the global [interval] itself and has one request
    under way. *)
Definition page_with_interval (n : Z) : Browser :=
  mkBrowser {[ "flash" := ["hidden"] ]} {[ "interval" := VNumber (inject_Z n) ]} [] []
    [poll_request] [poll_request].

(** A page that has an element with the id [interval] and no global of
    that name. *)
Definition page_with_interval_element : Browser :=
  mkBrowser {[ "flash" := ["hidden"]; "interval" := [] ]} ∅ [] []
    [poll_request] [poll_request].

(** A page without the indicator element. *)
Definition page_without_flash : Browser :=
  mkBrowser ∅ {[ "interval" := VNumber (inject_Z 1000) ]} [] []
    [poll_request] [poll_request].

End CheckIndexing.

(* ===================================================================== *)
(** ** The table / index-engine contract *)
(* ===================================================================== *)

Module Engine.

Local Open Scope nat_scope.

(** The engine itself (row flags, CSV read-only index engine, storage
    accessor, indexing coordinator, table) is Rust code that is not among
    the sources at hand.  Every definition of this module is modelled from
    the specification, sections 3 to 7, and says which part it stands
    for. *)

(** Modelled from the spec: RowFlag (section 3), the per-row
    classification. *)
Inductive RowFlag := include | exclude | skip.

(** Modelled from the spec: IndexingState (section 3), the per-table
    indexing state. *)
Inductive IndexingState := idle | building | ready | failed.

(** Modelled from the spec: the ErrorKind taxonomy (section 7). *)
Inductive ErrorKind :=
| NotReady
| BuildInProgress
| Cancelled
| SourceUnreadable.

Inductive Result (A : Type) :=
| Ok (a : A)
| Err (e : ErrorKind).
Arguments Ok {A} a.
Arguments Err {A} e.

(** Modelled from the spec: the [csv_dialect] option (section 6):
    delimiter, quote and escape characters. *)
Record Dialect := mkDialect {
  delimiter : ascii;
  quote : ascii;
  escape : ascii
}.

(** Modelled from the spec: the derived key representation (section
    4.2): the values of the key columns, in
    the configured order; keys are compared by exact equality. *)
Definition Key : Type := list string.

(** Modelled from the spec: the build configuration (section 6):
    [flag_rule] is a predicate over the parsed row,
    [key_columns] the ordered column identifiers (positions). *)
Record Config := mkConfig {
  flag_rule : list string → RowFlag;
  key_columns : list nat;
  csv_dialect : Dialect
}.

(** Modelled from the spec: IndexEntry (section 3) maps a lookup key to
    the byte offset of a row start. *)
Record IndexEntry := mkEntry {
  entry_key : Key;
  entry_offset : nat
}.

(** Modelled from the spec: the index structure (section 4.2, step 4):
    the entries in the order they were appended. *)
Definition Index : Type := list IndexEntry.

#[global] Instance IndexEntry_eq_dec : EqDecision IndexEntry.
Proof. solve_decision. Defined.

(** *** StorageAccessor *)

Definition newline : ascii := "010"%char.

(** Modelled from the spec: the StorageAccessor (section 4.3).  The
    physical rows of a dataset file, in file order; a row keeps its
    line terminator, the last row may lack one. *)
Fixpoint physical_rows (file : string) : list string :=
  match file with
  | EmptyString => []
  | String c rest =>
      if decide (c = newline) then String c EmptyString :: physical_rows rest
      else match physical_rows rest with
           | [] => [String c EmptyString]
           | r :: rs => String c r :: rs
           end
  end.

Fixpoint with_offsets (off : nat) (rows : list string) : list (nat * string) :=
  match rows with
  | [] => []
  | r :: rs => (off, r) :: with_offsets (off + String.length r) rs
  end.

(** Modelled from the spec: [stream()] of the StorageAccessor (section
    4.3): the rows with the byte position where each starts. *)
Definition stream (file : string) : list (nat * string) :=
  with_offsets 0 (physical_rows file).

(** File order on the rows of a stream: by the position they start at. *)
Definition earlier (x y : nat * string) : Prop := x.1 < y.1.

(** Modelled from the spec: the outcome of classifying one row (section
    3, RowFlag): the flag, and for an [include]
    row its lookup key. *)
Inductive Classified :=
| Included (k : Key)
| Excluded
| Skipped.

Definition flag_of (c : Classified) : RowFlag :=
  match c with
  | Included _ => include
  | Excluded => exclude
  | Skipped => skip
  end.

(** Modelled from the spec: the build task of the coordinator (sections
    4.4 and 5): a build in flight, with the rows still to read and the
    in-progress index. *)
Record Builder := mkBuilder {
  b_config : Config;
  b_rest : list (nat * string);
  b_entries : Index
}.

(** Modelled from the spec: Table and IndexingCoordinator (sections 3
    and 4.4): the indexing state, the active index
    (the one readers see), the builds in flight and the error of the
    last failed build. *)
Record Table := mkTable {
  state : IndexingState;
  active : option Index;
  builds : list Builder;
  last_error : option ErrorKind
}.

(** The coordinator's bookkeeping: a table that is [building] has one
    build in flight, any other table has none. *)
Definition coordinated (t : Table) : Prop :=
  match state t with
  | building => ∃ b, builds t = [b]
  | _ => builds t = []
  end.

Record BuildSummary := mkSummary {
  rows_read : nat;
  rows_indexed : nat
}.

(** Modelled from the spec: the start of the lifecycle (section 3): a
    table starts [idle], or [ready] if a prior index is loaded. *)
Definition new_table (prior : option Index) : Table :=
  mkTable (if prior is Some _ then ready else idle) prior [] None.

(** Modelled from the spec: [status()] (section 4.1), and the two-valued
    status given to external observers (section 6). *)
Definition status (t : Table) : IndexingState := state t.

Definition is_building (t : Table) : bool :=
  match state t with
  | building => true
  | _ => false
  end.

(** Modelled from the spec: the duplicate-key policy (section 4.2, step
    6), last-write-wins: entries are entered in order, a later entry with the
    same key supersedes an earlier one. *)
Definition index_map (idx : Index) : gmap Key nat :=
  foldl (λ m e, <[entry_key e := entry_offset e]> m) ∅ idx.

Definition index_lookup (idx : Index) (k : Key) : option nat :=
  index_map idx !! k.

(** Modelled from the spec: [lookup(key)] (section 4.1): only a ready
    index is consulted, [NotReady] otherwise. *)
Definition lookup (k : Key) (t : Table) : Result (option nat) :=
  match active t with
  | Some idx => Ok (index_lookup idx k)
  | None => Err NotReady
  end.

(** Modelled from the spec: [scan()] (section 4.1): the rows of the
    index, in file order. *)
Definition scan (t : Table) : Result (list nat) :=
  match active t with
  | Some idx => Ok (entry_offset <$> idx)
  | None => Err NotReady
  end.

(** Modelled from the spec: cancellation (section 5): a build that is
    cancelled fails with [Cancelled]; the active index
    stays. *)
Definition cancel (t : Table) : Table :=
  match state t with
  | building => mkTable failed (active t) [] (Some Cancelled)
  | _ => t
  end.

Section Build.

(** Modelled from the spec: the CSV parser (section 4.2, step 2), taken
    as a parameter.  Parsing of one physical row under a dialect; [None] for a malformed
    row.  The specification leaves the grammar to the dialect. *)
Variable parse_fields : Dialect → string → option (list string).

(** Modelled from the spec: key derivation (section 4.2, step 4 and the
    encoding semantics).  The lookup key of a parsed row: the fields at the key columns; a
    row that lacks one of them has no key. *)
Definition derive_key (cfg : Config) (fields : list string) : option Key :=
  mapM (λ c, fields !! c) (key_columns cfg).

(** Modelled from the spec: steps 2 to 4 of the build algorithm (section
    4.2) for one row: a malformed row is [skip];
    otherwise the flag rule decides; an [include] row whose key cannot
    be derived is [skip]. *)
Definition classify (cfg : Config) (raw : string) : Classified :=
  match parse_fields (csv_dialect cfg) raw with
  | None => Skipped
  | Some fields =>
      match flag_rule cfg fields with
      | include =>
          match derive_key cfg fields with
          | Some k => Included k
          | None => Skipped
          end
      | exclude => Excluded
      | skip => Skipped
      end
  end.

Definition flag (cfg : Config) (raw : string) : RowFlag :=
  flag_of (classify cfg raw).

(** Modelled from the spec: step 4 of the build algorithm: an [include]
    row appends its entry to the in-progress
    index. *)
Definition process_row (cfg : Config) (idx : Index) (r : nat * string) : Index :=
  match classify cfg r.2 with
  | Included k => idx ++ [mkEntry k r.1]
  | _ => idx
  end.

(** The entry a row contributes, if any, and the index a build that
    reads all of a file arrives at. *)
Definition entry_of (cfg : Config) (r : nat * string) : option IndexEntry :=
  match classify cfg r.2 with
  | Included k => Some (mkEntry k r.1)
  | _ => None
  end.

Definition built_index (cfg : Config) (file : string) : Index :=
  foldl (process_row cfg) [] (stream file).

(** Modelled from the spec: the coordinator's handling of a build
    request (sections 4.1 and 4.4): rejected while a build is in flight; fails when
    the source cannot be opened (the source is then [None]); otherwise
    the table is [building] with a fresh builder.  The active index is
    not touched. *)
Definition request_build (source : option string) (cfg : Config) (t : Table)
  : Result unit * Table :=
  match state t with
  | building => (Err BuildInProgress, t)
  | _ =>
      match source with
      | None =>
          (Err SourceUnreadable, mkTable failed (active t) (builds t) (Some SourceUnreadable))
      | Some file =>
          (Ok (), mkTable building (active t)
                    (mkBuilder cfg (stream file) [] :: builds t) None)
      end
  end.

(** Modelled from the spec: the build task (section 4.2, steps 2 to 5).
    One unit of work of the build in flight: read the next row, or, when
    no row is left, swap the in-progress index in as the active one. *)
Definition build_step (t : Table) : Table :=
  match builds t with
  | [] => t
  | b :: bs =>
      match b_rest b with
      | r :: rest =>
          mkTable (state t) (active t)
            (mkBuilder (b_config b) rest (process_row (b_config b) (b_entries b) r) :: bs)
            (last_error t)
      | [] => mkTable ready (Some (b_entries b)) bs None
      end
  end.

Definition summary (file : string) (t : Table) : BuildSummary :=
  mkSummary (length (stream file)) (length (default [] (active t))).

(** Modelled from the spec: [build(source, config)] (section 4.1): the
    request, then the build run to its
    end (a step per row and the swap). *)
Definition build (source : option string) (cfg : Config) (t : Table)
  : Result BuildSummary * Table :=
  match request_build source cfg t with
  | (Err e, t') => (Err e, t')
  | (Ok _, t') =>
      let file := default EmptyString source in
      let t'' := Nat.iter (S (length (stream file))) build_step t' in
      (Ok (summary file t''), t'')
  end.

(** Modelled from the spec: what can happen to a table (section 4.4): a
    build request, progress of the build in flight, cancellation. *)
Inductive Event :=
| EvRequest (source : option string) (cfg : Config)
| EvStep
| EvCancel.

Definition apply_event (t : Table) (e : Event) : Table :=
  match e with
  | EvRequest source cfg => (request_build source cfg t).2
  | EvStep => build_step t
  | EvCancel => cancel t
  end.

Definition run_events (evs : list Event) (t : Table) : Table :=
  foldl apply_event t evs.

Definition reachable (t : Table) : Prop :=
  ∃ prior evs, t = run_events evs (new_table prior).

End Build.

(** A dialect-driven splitter used for the scenarios: the line terminator
    is dropped, fields are separated by the delimiter, the quote character
    toggles quoting, the escape character takes the next character as it
    is; an open quote or a dangling escape makes the row malformed. *)
Fixpoint split_fields (d : Dialect) (quoted : bool) (cur : string) (s : string)
  : option (list string) :=
  match s with
  | EmptyString => if quoted then None else Some [String.rev cur]
  | String c rest =>
      if decide (c = escape d) then
        match rest with
        | EmptyString => None
        | String c' rest' => split_fields d quoted (String c' cur) rest'
        end
      else if decide (c = quote d) then split_fields d (negb quoted) cur rest
      else if decide (c = newline) then
        (if quoted then None else
           match rest with
           | EmptyString => Some [String.rev cur]
           | _ => None
           end)
      else if decide (c = delimiter d) then
        (if quoted then split_fields d quoted (String c cur) rest
         else cons (String.rev cur) <$> split_fields d false EmptyString rest)
      else split_fields d quoted (String c cur) rest
  end.

Definition simple_parse (d : Dialect) (raw : string) : option (list string) :=
  split_fields d false EmptyString raw.

Definition comma_dialect : Dialect := mkDialect ","%char "034"%char "092"%char.

(** The flag rule of the scenarios: column 1 is the flag column. *)
Definition yes_no_rule (fields : list string) : RowFlag :=
  match fields !! 1 with
  | Some f => if decide (f = "yes"%string) then include
              else if decide (f = "no"%string) then exclude
              else skip
  | None => skip
  end.

Definition scenario_config : Config := mkConfig yes_no_rule [0] comma_dialect.

(** Datasets of the scenarios, written as their rows. *)
Definition line (s : string) : string := String.append s (String newline EmptyString).

Definition file_of (rows : list string) : string :=
  foldr String.append EmptyString rows.

Definition scenario_file : string :=
  file_of (line <$> ["id,flag"; "1,yes"; "2,no"; "xx"; "3,yes"])%string.

Definition duplicate_file : string :=
  file_of (line <$> ["id,flag"; "1,yes"; "1,yes"])%string.

Definition duplicate_then_other_file : string :=
  file_of (line <$> ["id,flag"; "1,yes"; "1,yes"; "2,yes"])%string.

(** A table in the middle of a build of the scenario dataset. *)
Definition building_table : Table :=
  build_step simple_parse
    (request_build (Some scenario_file) scenario_config (new_table None)).2.

End Engine.

(* ===================================================================== *)
(** ** Properties of static/js/check_indexing.js *)
(* ===================================================================== *)

Section CheckIndexingProperties.

Import CheckIndexing.

Implicit Types (b : Browser) (body : string) (cl : list string).

Lemma set_document_same b : set_document (document b) b = b.
Proof. by destruct b. Qed.

Lemma branch_of_yes body : branch_of body = YesBranch ↔ body = "YES".
Proof.
  unfold branch_of. repeat case_decide; split; intros; congruence.
Qed.

Lemma branch_of_no body : branch_of body = NoBranch ↔ body = "NO".
Proof.
  unfold branch_of. repeat case_decide; split; intros; congruence.
Qed.

Lemma branch_of_error body :
  branch_of body = ErrorBranch ↔ body ≠ "YES" ∧ body ≠ "NO".
Proof.
  unfold branch_of. repeat case_decide; split; try intros [??]; intros; try congruence.
  done.
Qed.

(** The delay of the rescheduling statement is read from [interval],
    which the script does not declare. *)
Lemma interval_not_declared :
  list_to_map (M := gmap string Value) script_scope !! "interval" = None.
Proof. reflexivity. Qed.

Lemma checkInterval_declared :
  list_to_map (M := gmap string Value) script_scope !! "checkInterval"
  = Some (VNumber (inject_Z 1000)).
Proof. reflexivity. Qed.

Lemma getElementById_present b id cl :
  document b !! id = Some cl → getElementById id b = (Normal (Some id), b).
Proof. intros H. unfold getElementById. by rewrite H. Qed.

Lemma getElementById_absent b id :
  document b !! id = None → getElementById id b = (Normal None, b).
Proof. intros H. unfold getElementById. by rewrite H. Qed.

Lemma bind_normal {A B} (m : JS A) (k : A → JS B) b a b' :
  m b = (Normal a, b') → (m ≫= k) b = k a b'.
Proof. intros H. unfold mbind, JS_bind, js_bind. by rewrite H. Qed.

Lemma bind_throw {A B} (m : JS A) (k : A → JS B) b e b' :
  m b = (Throw e, b') → (m ≫= k) b = (Throw e, b').
Proof. intros H. unfold mbind, JS_bind, js_bind. by rewrite H. Qed.

Lemma on_tokens_present b id f cl :
  document b !! id = Some cl →
  on_tokens id f b = (Normal (), set_document (<[id := f cl]> (document b)) b).
Proof.
  intros H. unfold on_tokens. do 2 f_equal.
  apply map_eq; intros i. rewrite lookup_alter, lookup_insert.
  case_decide; subst; by rewrite ?H.
Qed.

Lemma on_tokens_fixed b id f cl :
  document b !! id = Some cl → f cl = cl → on_tokens id f b = (Normal (), b).
Proof.
  intros H Hf. rewrite (on_tokens_present _ _ _ _ H), Hf, insert_id by done.
  by rewrite set_document_same.
Qed.

(** The handler on its three branches. *)
Lemma onload_yes b cl :
  document b !! "flash" = Some cl →
  onload "YES" b
  = (Normal (), set_document (<["flash" := tokens_remove "hidden" cl]> (document b)) b).
Proof.
  intros H. unfold onload.
  rewrite (bind_normal _ _ _ _ _ (getElementById_present _ _ _ H)).
  assert (branch_of "YES" = YesBranch) as -> by by apply branch_of_yes.
  unfold classList_remove.
  rewrite (bind_normal _ _ b "flash" b) by done.
  by apply on_tokens_present.
Qed.

Lemma no_branch_prefix b cl :
  document b !! "flash" = Some cl →
  (c ← classList_contains (Some "flash") "hidden";
   if (c : bool) then classList_add (Some "flash") "hidden" else js_ret ()) b
  = (Normal (), b).
Proof.
  intros H.
  rewrite (bind_normal _ _ b (tokens_contains "hidden" cl) b).
  - destruct (tokens_contains "hidden" cl) eqn:Hc; [|done].
    unfold classList_add. rewrite (bind_normal _ _ b "flash" b) by done.
    apply (on_tokens_fixed _ _ _ _ H). unfold tokens_add. by rewrite Hc.
  - unfold classList_contains. rewrite (bind_normal _ _ b "flash" b) by done.
    by rewrite H.
Qed.

Lemma onload_no b cl :
  document b !! "flash" = Some cl →
  onload "NO" b = reschedule b.
Proof.
  intros H. unfold onload.
  rewrite (bind_normal _ _ _ _ _ (getElementById_present _ _ _ H)).
  assert (branch_of "NO" = NoBranch) as -> by by apply branch_of_no.
  by rewrite (bind_normal _ _ _ _ _ (no_branch_prefix _ _ H)).
Qed.

Lemma onload_no_absent b :
  document b !! "flash" = None →
  ∃ msg, onload "NO" b = (Throw (TypeError msg), b).
Proof.
  intros H. eexists. unfold onload.
  rewrite (bind_normal _ _ _ _ _ (getElementById_absent _ _ H)).
  assert (branch_of "NO" = NoBranch) as -> by by apply branch_of_no.
  erewrite bind_throw; [done|].
  unfold classList_contains. by erewrite bind_throw.
Qed.

Lemma onload_other b body :
  body ≠ "YES" → body ≠ "NO" →
  onload body b
  = reschedule (set_alerts (alerts b ++ ["There was an error trying to resume"]) b).
Proof.
  intros Hy Hn. unfold onload.
  rewrite (bind_normal _ _ b (if document b !! "flash" is Some _ then Some "flash" else None) b)
    by done.
  assert (branch_of body = ErrorBranch) as -> by by apply branch_of_error.
  by rewrite (bind_normal _ _ b () (set_alerts (alerts b ++ ["There was an error trying to resume"]) b)).
Qed.

Lemma ident_checkIndexing b :
  ident "checkIndexing" b = (Normal (bound_handler b), b).
Proof.
  unfold ident, bound_handler.
  change (list_to_map (M := gmap string Value) script_constants !! "checkIndexing")
    with (@None Value).
  change (list_to_map (M := gmap string Value) script_functions !! "checkIndexing")
    with (Some (VFunction CheckIndexingFn)).
  by destruct (page_globals b !! "checkIndexing").
Qed.

Lemma ident_interval b :
  ident "interval" b
  = match bound_interval b with
    | Some v => (Normal v, b)
    | None => (Throw (ReferenceError "interval"), b)
    end.
Proof.
  unfold ident, bound_interval.
  change (list_to_map (M := gmap string Value) script_constants !! "interval")
    with (@None Value).
  change (list_to_map (M := gmap string Value) script_functions !! "interval")
    with (@None Value).
  destruct (page_globals b !! "interval"); [done|].
  by destruct (document b !! "interval").
Qed.

Lemma reschedule_eq b :
  reschedule b
  = match bound_interval b with
    | Some v =>
        (Normal (),
         set_timers (timers b ++ [(handler_of (bound_handler b), timeout_of v)]) b)
    | None => (Throw (ReferenceError "interval"), b)
    end.
Proof.
  unfold reschedule.
  rewrite (bind_normal _ _ _ _ _ (ident_checkIndexing b)).
  pose proof (ident_interval b) as Hi.
  destruct (bound_interval b) as [v|].
  - by rewrite (bind_normal _ _ _ _ _ Hi).
  - by rewrite (bind_throw _ _ _ _ _ Hi).
Qed.

Lemma reschedule_throws b :
  page_globals b !! "interval" = None →
  document b !! "interval" = None →
  reschedule b = (Throw (ReferenceError "interval"), b).
Proof.
  intros Hg Hd. rewrite reschedule_eq. unfold bound_interval. by rewrite Hg, Hd.
Qed.

Lemma reschedule_frame b :
  alerts (exec reschedule b) = alerts b ∧ document (exec reschedule b) = document b.
Proof.
  unfold exec. rewrite reschedule_eq. by destruct (bound_interval b).
Qed.

Lemma onload_yes_absent b :
  document b !! "flash" = None →
  ∃ msg, onload "YES" b = (Throw (TypeError msg), b).
Proof.
  intros H. eexists. unfold onload.
  rewrite (bind_normal _ _ _ _ _ (getElementById_absent _ _ H)).
  assert (branch_of "YES" = YesBranch) as -> by by apply branch_of_yes.
  unfold classList_remove. by erewrite bind_throw.
Qed.

(** Nothing can happen on a page without timers and pending requests. *)
Lemma run_quiet evs b b' :
  timers b = [] → pending b = [] → run evs b = Some b' → b' = b.
Proof.
  intros Ht Hp. destruct evs as [|[|i|body] evs]; cbn.
  - congruence.
  - by rewrite Ht.
  - by rewrite Ht.
  - by rewrite Hp.
Qed.

(** Every body but "YES" ends in the rescheduling statement (for "NO",
    when the indicator exists). *)
Lemma onload_falls_through body b :
  body ≠ "YES" →
  is_Some (document b !! "flash") ∨ body ≠ "NO" →
  onload body b
  = reschedule (if decide (body = "NO") then b
                else set_alerts (alerts b ++ ["There was an error trying to resume"]) b).
Proof.
  intros Hy Hreach. case_decide as Hn.
  - subst body. destruct Hreach as [[cl Hf]|]; [|done]. by apply (onload_no _ cl).
  - by apply onload_other.
Qed.

(** *** The handler on sample responses *)

Example no_response_on_hidden_indicator :
  onload "NO" (page ["hidden"]) = (Throw (ReferenceError "interval"), page ["hidden"]).
Proof. vm_compute. reflexivity. Qed.

Example yes_response_on_hidden_indicator :
  document (exec (onload "YES") (page ["alert"; "hidden"])) !! "flash" = Some ["alert"].
Proof. vm_compute. reflexivity. Qed.

Example lower_case_body_is_an_error :
  branch_of "yes" = ErrorBranch ∧
  alerts (exec (onload "yes") (page ["hidden"])) = ["There was an error trying to resume"].
Proof. vm_compute. done. Qed.

(** Only a page that binds [interval] itself gets the next poll scheduled. *)
Example page_with_interval_reschedules :
  timers (exec (onload "NO")
            (mkBrowser {[ "flash" := ["hidden"] ]} {[ "interval" := VNumber (inject_Z 500) ]}
               [] [] [] []))
  = [(CheckIndexingFn, 500)].
Proof. vm_compute. reflexivity. Qed.

(** After one call of [checkIndexing] and a "NO" response nothing is
    pending any more. *)
Example one_call_then_no :
  ∃ b, run [ResponseArrives "NO"] (exec checkIndexing (exec script (page ["hidden"])))
       = Some b ∧ timers b = [] ∧ pending b = [] ∧ length (requests b) = 1%nat.
Proof. eexists. vm_compute. done. Qed.

(** *** The claims *)

(** C2, as stated, fails: on a page whose indicator is hidden, loading the
    script is followed by no poll at all, whatever timers fire and responses
    arrive: no request is ever sent. *)
Lemma no_poll_after_load :
  ¬ ∃ evs b', run evs (exec script (page ["hidden"])) = Some b' ∧ requests b' ≠ [].
Proof.
  intros (evs & b' & Hrun & Hreq).
  apply run_quiet in Hrun; [|done..]. subst b'. by apply Hreq.
Qed.

(** C2, amended: loading the script sends no request and schedules no
    timer (the start-up [setTimeout] is a comment); the script declares a
    check interval of 1000 ms; each call of [checkIndexing], and so each
    timer that fires with it, sends exactly one asynchronous GET request
    to [/indexing] and schedules no timer of its own. *)
Theorem polling_by_call_only b :
  script b = (Normal (), b) ∧
  checkInterval = 1000 ∧
  result checkIndexing b = Normal () ∧
  requests (exec checkIndexing b) = requests b ++ [mkRequest "GET" "/indexing" true] ∧
  pending (exec checkIndexing b) = pending b ++ [mkRequest "GET" "/indexing" true] ∧
  timers (exec checkIndexing b) = timers b ∧
  (∀ d ts, timers b = (CheckIndexingFn, d) :: ts →
     ∃ b', step TimerFires b = Some b' ∧ timers b' = ts ∧
           requests b' = requests b ++ [mkRequest "GET" "/indexing" true]).
Proof.
  repeat split; try done.
  intros d ts Ht. eexists. cbn. rewrite Ht. done.
Qed.

(** C3: the handler raises the alert "There was an error trying to
    resume" for every response body other than "YES" and "NO", and for no
    other body. *)
Theorem alert_iff_unknown_body body b :
  (body ≠ "YES" → body ≠ "NO" →
     alerts (exec (onload body) b)
     = alerts b ++ ["There was an error trying to resume"]) ∧
  (body = "YES" ∨ body = "NO" → alerts (exec (onload body) b) = alerts b).
Proof.
  split.
  - intros Hy Hn. unfold exec. rewrite onload_other by done.
    apply (reschedule_frame (set_alerts _ b)).
  - intros [->| ->]; unfold exec; destruct (document b !! "flash") as [cl|] eqn:Hf.
    + by rewrite (onload_yes _ _ Hf).
    + by destruct (onload_yes_absent _ Hf) as [msg ->].
    + rewrite (onload_no _ _ Hf). apply reschedule_frame.
    + by destruct (onload_no_absent _ Hf) as [msg ->].
Qed.




(** C5: whatever the class list of the indicator is, a "NO" response
    leaves it as it was: [add] is only called when "hidden" is already
    there, which changes nothing, and nothing is removed; an indicator
    that is visible stays visible. *)
Theorem no_response_keeps_classes b cl :
  document b !! "flash" = Some cl →
  document (exec (onload "NO") b) = document b ∧
  document (exec (onload "NO") b) !! "flash" = Some cl ∧
  (tokens_contains "hidden" cl = true → tokens_add "hidden" cl = cl) ∧
  ("hidden" ∉ cl →
     ∀ cl', document (exec (onload "NO") b) !! "flash" = Some cl' → "hidden" ∉ cl').
Proof.
  intros Hf.
  assert (Hd : document (exec (onload "NO") b) = document b).
  { unfold exec. rewrite (onload_no _ _ Hf). apply reschedule_frame. }
  rewrite Hd. repeat split; [done| |].
  - intros Hc. unfold tokens_add. by rewrite Hc.
  - intros Hv cl' Hf'. congruence.
Qed.

Lemma no_response_keeps_classes_witness :
  document (page ["alert"; "info"]) !! "flash" = Some ["alert"; "info"] ∧
  document (exec (onload "NO") (page ["alert"; "info"])) !! "flash"
  = Some ["alert"; "info"].
Proof.
  assert (H : document (page ["alert"; "info"]) !! "flash" = Some ["alert"; "info"])
    by reflexivity.
  split; [exact H|].
  exact (proj1 (proj2 (no_response_keeps_classes _ _ H))).
Defined.

(** C6: a "YES" response removes the class "hidden" from the indicator and
    the handler returns at once: afterwards the class list does not contain
    "hidden", no timer has been scheduled and no request sent, so this
    handler does not call [checkIndexing] again. *)
Theorem yes_response_shows_and_stops b cl :
  document b !! "flash" = Some cl →
  result (onload "YES") b = Normal () ∧
  document (exec (onload "YES") b) !! "flash" = Some (tokens_remove "hidden" cl) ∧
  ("hidden" ∉ tokens_remove "hidden" cl) ∧
  (∀ tok, tok ≠ "hidden" → (tok ∈ tokens_remove "hidden" cl ↔ tok ∈ cl)) ∧
  timers (exec (onload "YES") b) = timers b ∧
  requests (exec (onload "YES") b) = requests b ∧
  pending (exec (onload "YES") b) = pending b ∧
  alerts (exec (onload "YES") b) = alerts b.
Proof.
  intros Hf. unfold result, exec. rewrite (onload_yes _ _ Hf). cbn.
  repeat split; try done.
  - by rewrite lookup_insert_eq.
  - unfold tokens_remove. rewrite list_elem_of_filter. by intros [? _].
  - unfold tokens_remove. rewrite list_elem_of_filter. by intros [_ ?].
  - unfold tokens_remove. rewrite list_elem_of_filter. done.
Qed.

Lemma yes_response_shows_and_stops_witness :
  document (page ["alert"; "hidden"]) !! "flash" = Some ["alert"; "hidden"] ∧
  result (onload "YES") (page ["alert"; "hidden"]) = Normal () ∧
  document (exec (onload "YES") (page ["alert"; "hidden"])) !! "flash"
  = Some (tokens_remove "hidden" ["alert"; "hidden"]) ∧
  timers (exec (onload "YES") (page ["alert"; "hidden"])) = [].
Proof.
  assert (H : document (page ["alert"; "hidden"]) !! "flash" = Some ["alert"; "hidden"])
    by reflexivity.
  split; [exact H|].
  pose proof (yes_response_shows_and_stops _ _ H) as (Hr & Hd & _ & _ & Ht & _).
  split; [exact Hr|]. split; [exact Hd|exact Ht].
Defined.

End CheckIndexingProperties.

(* ===================================================================== *)
(** ** The handler and the event loop beyond the single response *)
(* ===================================================================== *)

Section CheckIndexingRuns.

Import CheckIndexing.

Implicit Types (b : Browser) (body : string) (cl : list string) (evs : list Event).

Lemma reschedule_outcome b : Rescheduled b (reschedule b).
Proof.
  rewrite reschedule_eq. unfold bound_interval.
  destruct (page_globals b !! "interval") as [v|] eqn:Hg; [constructor|].
  destruct (document b !! "interval") eqn:Hd; by constructor.
Qed.

Lemma onload_outcome body b : Outcome body b (onload body b).
Proof.
  destruct (decide (body = "YES")) as [->|Hy].
  { destruct (document b !! "flash") as [cl|] eqn:Hf.
    - rewrite (onload_yes _ _ Hf). by constructor.
    - destruct (onload_yes_absent _ Hf) as [msg ->]. constructor; auto. }
  destruct (decide (body = "NO")) as [->|Hn].
  { destruct (document b !! "flash") as [cl|] eqn:Hf.
    - rewrite (onload_no _ _ Hf). apply NoThenRescheduled; eauto using reschedule_outcome.
    - destruct (onload_no_absent _ Hf) as [msg ->]. constructor; auto. }
  rewrite onload_other by done.
  apply AlertThenRescheduled; auto using reschedule_outcome.
Qed.

Lemma tokens_remove_twice tok cl :
  tokens_remove tok (tokens_remove tok cl) = tokens_remove tok cl.
Proof.
  unfold tokens_remove. induction cl as [|c cl IH]; [done|].
  destruct (decide (c ≠ tok)).
  - rewrite !filter_cons_True by done. by rewrite IH.
  - by rewrite filter_cons_False.
Qed.

Lemma tokens_remove_absent tok cl : tok ∉ cl → tokens_remove tok cl = cl.
Proof.
  unfold tokens_remove. induction cl as [|c cl IH]; [done|].
  rewrite not_elem_of_cons. intros [Hne Hnin].
  rewrite filter_cons_True by done. by rewrite IH.
Qed.

(** What the handler may have done to the indicator: nothing, or removed
    "hidden". *)
Lemma onload_flash body b cl :
  document b !! "flash" = Some cl →
  document (exec (onload body) b) !! "flash" = Some cl ∨
  document (exec (onload body) b) !! "flash" = Some (tokens_remove "hidden" cl).
Proof.
  intros Hf. unfold exec.
  destruct (onload_outcome body b) as [| | ? ? ? [|]| ? ? ? [|]]; cbn; auto.
  right. rewrite lookup_insert_eq. congruence.
Qed.

(** Only a "YES" response changes the document. *)
Lemma onload_document body b :
  body ≠ "YES" → document (exec (onload body) b) = document b.
Proof.
  intros Hy. unfold exec.
  by destruct (onload_outcome body b) as [| ? [|]| ? ? ? [|]| ? ? ? [|]].
Qed.

Lemma onload_other_elements body b id :
  id ≠ "flash" → document (exec (onload body) b) !! id = document b !! id.
Proof.
  intros Hid. unfold exec.
  destruct (onload_outcome body b) as [| | ? ? ? [|]| ? ? ? [|]]; cbn; auto.
  by rewrite lookup_insert_ne.
Qed.

Lemma onload_alerts body b :
  alerts (exec (onload body) b)
  = alerts b ++ (if is_unknown (ResponseArrives body) then [error_alert] else []).
Proof.
  unfold exec, is_unknown.
  destruct (onload_outcome body b) as [cl ->| ? [-> | ->]| ? -> ? [|]| ? ? ? [|]];
    cbn; rewrite ?app_nil_r; try done;
    by assert (branch_of body = ErrorBranch) as -> by by apply branch_of_error.
Qed.

Lemma onload_requests body b :
  requests (exec (onload body) b) = requests b ∧
  pending (exec (onload body) b) = pending b ∧
  page_globals (exec (onload body) b) = page_globals b.
Proof.
  unfold exec. by destruct (onload_outcome body b) as [| | ? ? ? [|]| ? ? ? [|]].
Qed.

(** When neither the page nor the document gives [interval], no response
    adds a timer. *)
Lemma onload_timers_unbound body b :
  page_globals b !! "interval" = None → document b !! "interval" = None →
  timers (exec (onload body) b) = timers b.
Proof.
  intros Hg Hd. unfold exec. destruct (decide (body = "YES")) as [->|Hy].
  - destruct (onload_outcome "YES" b) as [| | ? [=]|]; done.
  - destruct (decide (body = "NO")) as [->|Hn].
    + destruct (document b !! "flash") as [cl|] eqn:Hf.
      * by rewrite (onload_no _ _ Hf), reschedule_throws.
      * by destruct (onload_no_absent _ Hf) as [msg ->].
    + by rewrite onload_other, reschedule_throws.
Qed.

(** *** Further properties of the script *)

(** X1: whatever the response is, the handler sends no request, leaves the
    pending requests and the bindings of the page alone, changes no element
    other than the indicator, and never adds a class to the indicator: each
    class it has afterwards it had before. *)
Theorem handler_frame body b :
  requests (exec (onload body) b) = requests b ∧
  pending (exec (onload body) b) = pending b ∧
  page_globals (exec (onload body) b) = page_globals b ∧
  (∀ id, id ≠ "flash" → document (exec (onload body) b) !! id = document b !! id) ∧
  (∀ cl', document (exec (onload body) b) !! "flash" = Some cl' →
          ∃ cl, document b !! "flash" = Some cl ∧ cl' ⊆ cl).
Proof.
  destruct (onload_requests body b) as (Hr & Hp & Hg).
  repeat split; try done.
  - intros id Hid. by apply onload_other_elements.
  - intros cl' Hcl'. destruct (document b !! "flash") as [cl|] eqn:Hf.
    + exists cl. split; [done|].
      destruct (onload_flash body b cl Hf) as [H|H]; rewrite H in Hcl';
        injection Hcl' as <-; [done|apply list_subseteq_filter].
    + exfalso. revert Hcl'. destruct (decide (body = "YES")) as [->|Hy].
      * unfold exec. destruct (onload_yes_absent _ Hf) as [msg ->]. cbn. congruence.
      * rewrite onload_document by done. congruence.
Qed.

(** X2: on a page without the indicator element, a "YES" and a "NO"
    response both end in a type error and change nothing: no alert, and no
    timer even when the page binds [interval]; any other body still raises
    the alert. *)
Theorem missing_indicator body b :
  document b !! "flash" = None →
  (body = "YES" ∨ body = "NO" → ∃ msg, onload body b = (Throw (TypeError msg), b)) ∧
  (body ≠ "YES" → body ≠ "NO" →
     alerts (exec (onload body) b) = alerts b ++ [error_alert] ∧
     document (exec (onload body) b) = document b).
Proof.
  intros Hf. split.
  - intros [-> | ->]; [by apply onload_yes_absent|by apply onload_no_absent].
  - intros Hy Hn. unfold exec. rewrite onload_other by done.
    split; apply (reschedule_frame (set_alerts _ b)).
Qed.

Lemma missing_indicator_witness :
  document page_without_flash !! "flash" = None ∧
  (∃ msg, onload "NO" page_without_flash = (Throw (TypeError msg), page_without_flash)) ∧
  timers (exec (onload "NO") page_without_flash) = [].
Proof.
  assert (Hf : document page_without_flash !! "flash" = None) by reflexivity.
  split; [exact Hf|].
  destruct (missing_indicator "NO" page_without_flash Hf) as [Hthrow _].
  destruct (Hthrow (or_intror eq_refl)) as [msg Hmsg].
  split; [by exists msg|]. unfold exec. rewrite Hmsg. reflexivity.
Defined.

(** X3: a second "YES" response changes nothing any more: handling "YES"
    twice leaves the browser as handling it once does. *)
Theorem yes_twice b :
  exec (onload "YES") (exec (onload "YES") b) = exec (onload "YES") b.
Proof.
  unfold exec. destruct (document b !! "flash") as [cl|] eqn:Hf.
  - rewrite (onload_yes _ _ Hf). cbn.
    erewrite onload_yes; [|cbn; apply lookup_insert_eq].
    cbn. unfold set_document. cbn.
    by rewrite insert_insert_eq, tokens_remove_twice.
  - destruct (onload_yes_absent _ Hf) as [msg Hmsg]. rewrite Hmsg. cbn. by rewrite Hmsg.
Qed.

(** *** Runs of the event loop *)

(** A timer step: one pending timer is gone, its callback was the
    script's function and has sent one request. *)
Lemma step_timer e b b' :
  is_timer e = true →
  step e b = Some b' →
  ∃ ts, ts `sublist_of` timers b ∧ S (length ts) = length (timers b) ∧
        b' = set_requests (requests b ++ [poll_request]) (pending b ++ [poll_request])
               (set_timers ts b).
Proof.
  destruct e as [|i|body]; [| |done]; intros _; cbn.
  - destruct (timers b) as [|[[] d] ts]; [done| |done].
    intros [= <-]. exists ts. split; [by apply sublist_cons|done].
  - destruct (timers b !! S i) as [[[] d]|] eqn:Hi; [|by case_decide|done].
    case_decide; [|done]. intros [= <-]. exists (delete (S i) (timers b)).
    split; [apply sublist_delete|]. split; [|done].
    rewrite length_delete by eauto. apply lookup_lt_Some in Hi. lia.
Qed.

Lemma step_response e b b' :
  is_timer e = false →
  step e b = Some b' →
  ∃ body r rs, e = ResponseArrives body ∧ pending b = r :: rs ∧
               b' = exec (onload body) (set_requests (requests b) rs b).
Proof.
  destruct e as [|i|body]; [done|done|]; intros _; cbn.
  destruct (pending b) as [|r rs]; [done|].
  intros [= <-]. by exists body, r, rs.
Qed.

Lemma run_cons e evs b b' :
  run (e :: evs) b = Some b' → ∃ b1, step e b = Some b1 ∧ run evs b1 = Some b'.
Proof. cbn. destruct (step e b) as [b1|]; [|done]. by exists b1. Qed.

Lemma count_events_cons p e evs :
  count_events p (e :: evs) = ((if p e then 1 else 0) + count_events p evs)%nat.
Proof. unfold count_events. cbn. by destruct (p e). Qed.

Lemma run_requests evs b b' :
  run evs b = Some b' →
  requests b' = requests b ++ replicate (count_events is_timer evs) poll_request.
Proof.
  revert b. induction evs as [|e evs IH]; intros b Hrun.
  - injection Hrun as <-. cbn. by rewrite app_nil_r.
  - apply run_cons in Hrun as (b1 & Hstep & Hrun). rewrite (IH _ Hrun).
    rewrite count_events_cons. destruct (is_timer e) eqn:He.
    + apply step_timer in Hstep as (ts & _ & _ & ->); [|done].
      cbn. by rewrite <- app_assoc.
    + apply step_response in Hstep as (body & r & rs & _ & _ & ->); [|done].
      by rewrite (proj1 (onload_requests _ _)).
Qed.



Lemma run_other_elements evs b b' id :
  run evs b = Some b' → id ≠ "flash" → document b' !! id = document b !! id.
Proof.
  revert b. induction evs as [|e evs IH]; intros b Hrun Hid.
  - by injection Hrun as <-.
  - apply run_cons in Hrun as (b1 & Hstep & Hrun). rewrite (IH _ Hrun Hid).
    destruct (is_timer e) eqn:He.
    + by apply step_timer in Hstep as (ts & _ & _ & ->).
    + apply step_response in Hstep as (body & r & rs & _ & _ & ->); [|done].
      by rewrite onload_other_elements.
Qed.

(** When [interval] resolves to nothing, the pending timers only go. *)
Lemma run_timers_unbound evs b b' :
  page_globals b !! "interval" = None →
  document b !! "interval" = None →
  run evs b = Some b' →
  timers b' `sublist_of` timers b ∧
  (length (timers b') + count_events is_timer evs = length (timers b))%nat.
Proof.
  revert b. induction evs as [|e evs IH]; intros b Hg Hd Hrun.
  - injection Hrun as <-. cbn. split; [done|lia].
  - apply run_cons in Hrun as (b1 & Hstep & Hrun). rewrite count_events_cons.
    destruct (is_timer e) eqn:He.
    + apply step_timer in Hstep as (ts & Hsub & Hlen & ->); [|done].
      destruct (IH (set_requests _ _ (set_timers ts b)) Hg Hd Hrun) as [Hsub' Hlen'].
      cbn in *. split; [by etrans|lia].
    + apply step_response in Hstep as (body & r & rs & _ & _ & ->); [|done].
      assert (Hg1 : page_globals (exec (onload body) (set_requests (requests b) rs b))
                    !! "interval" = None)
        by by rewrite (proj2 (proj2 (onload_requests _ _))).
      assert (Hd1 : document (exec (onload body) (set_requests (requests b) rs b))
                    !! "interval" = None)
        by by rewrite onload_other_elements.
      destruct (IH _ Hg1 Hd1 Hrun) as [Hsub' Hlen'].
      rewrite onload_timers_unbound in * by done. cbn in *. split; [done|lia].
Qed.

Lemma run_document evs b b' cl :
  run evs b = Some b' →
  document b !! "flash" = Some cl →
  (document b' !! "flash" = Some cl ∨
   document b' !! "flash" = Some (tokens_remove "hidden" cl)) ∧
  (ResponseArrives "YES" ∈ evs →
   document b' !! "flash" = Some (tokens_remove "hidden" cl)).
Proof.
  revert b cl. induction evs as [|e evs IH]; intros b cl Hrun Hf.
  - injection Hrun as <-. split; [by left|]. intros H. by apply elem_of_nil in H.
  - apply run_cons in Hrun as (b1 & Hstep & Hrun).
    destruct (is_timer e) eqn:He.
    + apply step_timer in Hstep as (ts & _ & _ & ->); [|done].
      destruct (IH _ cl Hrun Hf) as [H1 H2]. split; [done|].
      intros Hin. apply elem_of_cons in Hin as [<-|Hin]; [done|auto].
    + apply step_response in Hstep as (body & r & rs & -> & _ & ->); [|done].
      destruct (decide (body = "YES")) as [->|Hy].
      * assert (Hf1 : document (exec (onload "YES") (set_requests (requests b) rs b))
                      !! "flash" = Some (tokens_remove "hidden" cl)).
        { unfold exec. rewrite (onload_yes _ cl) by done. cbn. apply lookup_insert_eq. }
        destruct (IH _ _ Hrun Hf1) as [H1 _]. rewrite tokens_remove_twice in H1.
        assert (document b' !! "flash" = Some (tokens_remove "hidden" cl)) by by destruct H1.
        auto.
      * destruct (onload_flash body (set_requests (requests b) rs b) cl Hf) as [Hf1|Hf1];
          destruct (IH _ _ Hrun Hf1) as [H1 H2]; rewrite ?tokens_remove_twice in *.
        -- split; [done|]. intros Hin.
           apply elem_of_cons in Hin as [[=]|Hin]; [congruence|auto].
        -- assert (document b' !! "flash" = Some (tokens_remove "hidden" cl))
             by by destruct H1.
           auto.
Qed.



(** X5: on a page on which [interval] resolves to nothing (no global of
    that name and no element with that id), the script never schedules a
    timer: along any run the pending timers are among the initial ones, one
    fewer for each timer that fired, so no more polls are sent than timers
    were pending at the start. *)
Theorem no_timer_of_its_own evs b b' :
  page_globals b !! "interval" = None →
  document b !! "interval" = None →
  run evs b = Some b' →
  timers b' `sublist_of` timers b ∧
  (length (timers b') + count_events is_timer evs = length (timers b))%nat ∧
  (length (requests b') ≤ length (requests b) + length (timers b))%nat.
Proof.
  intros Hg Hd Hrun. destruct (run_timers_unbound _ _ _ Hg Hd Hrun) as [Hsub Hlen].
  split; [done|]. split; [done|].
  rewrite (run_requests _ _ _ Hrun), length_app, length_replicate. lia.
Qed.

Lemma no_timer_of_its_own_witness :
  page_globals waiting_page !! "interval" = None ∧
  document waiting_page !! "interval" = None ∧
  run [TimerFires; ResponseArrives "NO"] waiting_page
  = Some (mkBrowser {[ "flash" := ["alert"; "hidden"] ]} ∅ [] []
            [poll_request] []) ∧
  ([] : list (Callback * Z)) `sublist_of` timers waiting_page.
Proof.
  assert (Hg : page_globals waiting_page !! "interval" = None) by reflexivity.
  assert (Hd : document waiting_page !! "interval" = None) by reflexivity.
  assert (Hrun : run [TimerFires; ResponseArrives "NO"] waiting_page
                 = Some (mkBrowser {[ "flash" := ["alert"; "hidden"] ]} ∅ [] []
                           [poll_request] [])).
  { vm_compute. reflexivity. }
  split; [exact Hg|]. split; [exact Hd|]. split; [exact Hrun|].
  exact (proj1 (no_timer_of_its_own _ _ _ Hg Hd Hrun)).
Defined.

(** X6: along any run the user gets one alert per response whose body is
    neither "YES" nor "NO", always with the same message, and no other
    alert. *)
Theorem one_alert_per_unknown_body evs b b' :
  run evs b = Some b' →
  alerts b' = alerts b ++ replicate (count_events is_unknown evs) error_alert.
Proof.
  revert b. induction evs as [|e evs IH]; intros b Hrun.
  - injection Hrun as <-. cbn. by rewrite app_nil_r.
  - apply run_cons in Hrun as (b1 & Hstep & Hrun). rewrite (IH _ Hrun).
    rewrite count_events_cons. destruct (is_timer e) eqn:He.
    + apply step_timer in Hstep as (ts & _ & _ & ->); [|done].
      by destruct e.
    + apply step_response in Hstep as (body & r & rs & -> & _ & ->); [|done].
      rewrite onload_alerts. cbn -[is_unknown].
      destruct (is_unknown (ResponseArrives body)); cbn;
        by rewrite <- ?app_assoc, ?app_nil_r.
Qed.

Lemma one_alert_per_unknown_body_witness :
  run [TimerFires; ResponseArrives "MAYBE"] waiting_page
  = Some (mkBrowser {[ "flash" := ["alert"; "hidden"] ]} ∅ [error_alert] []
            [poll_request] []) ∧
  [error_alert] = alerts waiting_page ++ replicate 1 error_alert.
Proof.
  assert (Hrun : run [TimerFires; ResponseArrives "MAYBE"] waiting_page
                 = Some (mkBrowser {[ "flash" := ["alert"; "hidden"] ]} ∅ [error_alert] []
                           [poll_request] [])).
  { vm_compute. reflexivity. }
  split; [exact Hrun|].
  exact (one_alert_per_unknown_body _ _ _ Hrun).
Defined.

(** X7: along any run the class list of the indicator is either what it
    was or what it was without "hidden": no response ever hides the
    indicator again.  Once a "YES" response has been handled, "hidden" is
    gone for the rest of the run; an indicator that starts visible is never
    changed; no other element is touched. *)
Theorem indicator_only_ever_shown evs b b' cl :
  run evs b = Some b' →
  document b !! "flash" = Some cl →
  (document b' !! "flash" = Some cl ∨
   document b' !! "flash" = Some (tokens_remove "hidden" cl)) ∧
  (ResponseArrives "YES" ∈ evs →
   document b' !! "flash" = Some (tokens_remove "hidden" cl)) ∧
  ("hidden" ∉ cl → document b' !! "flash" = Some cl) ∧
  (∀ id, id ≠ "flash" → document b' !! id = document b !! id).
Proof.
  intros Hrun Hf. destruct (run_document _ _ _ _ Hrun Hf) as [H1 H2].
  split; [done|]. split; [done|]. split.
  - intros Hv. rewrite (tokens_remove_absent _ _ Hv) in H1. by destruct H1.
  - intros id Hid. by eapply run_other_elements.
Qed.

Lemma indicator_only_ever_shown_witness :
  run [TimerFires; ResponseArrives "YES"] waiting_page
  = Some (mkBrowser {[ "flash" := ["alert"] ]} ∅ [] [] [poll_request] []) ∧
  document waiting_page !! "flash" = Some ["alert"; "hidden"] ∧
  (ResponseArrives "YES" ∈ [TimerFires; ResponseArrives "YES"] →
   document (mkBrowser {[ "flash" := ["alert"] ]} ∅ [] [] [poll_request] []) !! "flash"
   = Some (tokens_remove "hidden" ["alert"; "hidden"])).
Proof.
  assert (Hrun : run [TimerFires; ResponseArrives "YES"] waiting_page
                 = Some (mkBrowser {[ "flash" := ["alert"] ]} ∅ [] [] [poll_request] [])).
  { vm_compute. reflexivity. }
  assert (Hf : document waiting_page !! "flash" = Some ["alert"; "hidden"]) by reflexivity.
  split; [exact Hrun|]. split; [exact Hf|].
  exact (proj1 (proj2 (indicator_only_ever_shown _ _ _ _ Hrun Hf))).
Defined.

Lemma to_long_in_range q n :
  (q == inject_Z n)%Q → 0 ≤ n < 2 ^ 31 → to_long q = n.
Proof.
  unfold Qeq. cbn [Qnum Qden inject_Z]. intros Hq Hn. unfold to_long.
  rewrite Z.mul_1_r in Hq. rewrite Hq, Z.quot_mul by done.
  rewrite Z.mod_small by lia. by case_decide; [|lia].
Qed.

Lemma timeout_of_bounds v : 0 ≤ timeout_of v < 2 ^ 31.
Proof.
  destruct v as [|q| |]; cbn; try lia. unfold to_long.
  pose proof (Z.mod_pos_bound (Z.quot (Qnum q) (Z.pos (Qden q))) (2 ^ 32)).
  case_decide; lia.
Qed.

(** X8: the delay of the next poll is taken from what the page binds to
    the global [interval], never from the script's own [checkInterval]: when
    the page binds [interval] to a number and has not assigned to
    [checkIndexing], every response that reaches the rescheduling statement
    completes normally and schedules [checkIndexing] once, with the timeout
    the host makes of that number (truncated, wrapped to 32 bits, not below
    0), which is the number itself when it is an integer from 0 to
    2^31 - 1; when that timer fires the next request is sent. *)
Theorem page_interval_drives_polling body b q :
  page_globals b !! "interval" = Some (VNumber q) →
  page_globals b !! "checkIndexing" = None →
  body ≠ "YES" →
  is_Some (document b !! "flash") ∨ body ≠ "NO" →
  result (onload body) b = Normal () ∧
  timers (exec (onload body) b) = timers b ++ [(CheckIndexingFn, timeout_of (VNumber q))] ∧
  0 ≤ timeout_of (VNumber q) < 2 ^ 31 ∧
  (∀ n, 0 ≤ n < 2 ^ 31 → (q == inject_Z n)%Q → timeout_of (VNumber q) = n) ∧
  (timers b = [] →
   ∃ b', step TimerFires (exec (onload body) b) = Some b' ∧
         timers b' = [] ∧
         requests b' = requests b ++ [poll_request]).
Proof.
  intros Hg Hf Hy Hreach.
  assert (Hon : ∃ b1, onload body b
                      = (Normal (),
                         set_timers (timers b ++ [(CheckIndexingFn, timeout_of (VNumber q))]) b1) ∧
                      timers b1 = timers b ∧ requests b1 = requests b ∧
                      pending b1 = pending b).
  { rewrite onload_falls_through, reschedule_eq by done.
    unfold bound_interval, bound_handler.
    case_decide; cbn [page_globals set_alerts]; rewrite Hg, Hf; cbn; eauto. }
  destruct Hon as (b1 & Hon & Ht & Hr & Hp).
  unfold result, exec. rewrite Hon. cbn [fst snd timers set_timers].
  split; [done|]. split; [done|]. split; [apply timeout_of_bounds|]. split.
  - intros n Hn Hq. cbn. rewrite (to_long_in_range q n) by done. lia.
  - intros Hnil. rewrite Hnil. cbn. eexists. split; [reflexivity|].
    cbn. by rewrite Hr.
Qed.

Lemma page_interval_drives_polling_witness :
  page_globals (page_with_interval 250) !! "interval" = Some (VNumber (inject_Z 250)) ∧
  page_globals (page_with_interval 250) !! "checkIndexing" = None ∧
  "NO" ≠ "YES" ∧
  (is_Some (document (page_with_interval 250) !! "flash") ∨ "NO" ≠ "NO") ∧
  timers (exec (onload "NO") (page_with_interval 250))
  = [] ++ [(CheckIndexingFn, timeout_of (VNumber (inject_Z 250)))].
Proof.
  assert (Hg : page_globals (page_with_interval 250) !! "interval"
               = Some (VNumber (inject_Z 250))) by reflexivity.
  assert (Hf : page_globals (page_with_interval 250) !! "checkIndexing" = None)
    by reflexivity.
  assert (Hy : "NO" ≠ "YES") by discriminate.
  assert (Hreach : is_Some (document (page_with_interval 250) !! "flash") ∨ "NO" ≠ "NO")
    by (left; eexists; reflexivity).
  split; [exact Hg|]. split; [exact Hf|]. split; [exact Hy|]. split; [exact Hreach|].
  exact (proj1 (proj2 (page_interval_drives_polling "NO" (page_with_interval 250)
                         (inject_Z 250) Hg Hf Hy Hreach))).
Defined.

(** X9: an element of the page with the id [interval] is enough to make
    the rescheduling statement run: when no global of that name exists, the
    identifier resolves to the element, which is not a number, so every
    response that reaches the statement completes normally and schedules
    [checkIndexing] with timeout 0. *)
Theorem element_named_interval body b :
  page_globals b !! "interval" = None →
  is_Some (document b !! "interval") →
  page_globals b !! "checkIndexing" = None →
  body ≠ "YES" →
  is_Some (document b !! "flash") ∨ body ≠ "NO" →
  result (onload body) b = Normal () ∧
  timers (exec (onload body) b) = timers b ++ [(CheckIndexingFn, 0)] ∧
  requests (exec (onload body) b) = requests b.
Proof.
  intros Hg [el Hd] Hf Hy Hreach.
  unfold result, exec. rewrite onload_falls_through, reschedule_eq by done.
  unfold bound_interval, bound_handler.
  case_decide; cbn [page_globals document set_alerts]; by rewrite Hg, Hd, Hf.
Qed.

Lemma element_named_interval_witness :
  page_globals page_with_interval_element !! "interval" = None ∧
  is_Some (document page_with_interval_element !! "interval") ∧
  page_globals page_with_interval_element !! "checkIndexing" = None ∧
  "NO" ≠ "YES" ∧
  (is_Some (document page_with_interval_element !! "flash") ∨ "NO" ≠ "NO") ∧
  timers (exec (onload "NO") page_with_interval_element) = [] ++ [(CheckIndexingFn, 0)].
Proof.
  assert (Hg : page_globals page_with_interval_element !! "interval" = None)
    by reflexivity.
  assert (Hd : is_Some (document page_with_interval_element !! "interval"))
    by (eexists; reflexivity).
  assert (Hf : page_globals page_with_interval_element !! "checkIndexing" = None)
    by reflexivity.
  assert (Hy : "NO" ≠ "YES") by discriminate.
  assert (Hreach : is_Some (document page_with_interval_element !! "flash") ∨ "NO" ≠ "NO")
    by (left; eexists; reflexivity).
  split; [exact Hg|]. split; [exact Hd|]. split; [exact Hf|]. split; [exact Hy|].
  split; [exact Hreach|].
  exact (proj1 (proj2 (element_named_interval "NO" page_with_interval_element
                         Hg Hd Hf Hy Hreach))).
Defined.

(** *** The two status values *)

(** C1: the handler reads the response body as one of two valid status
    values.  It takes the YES branch exactly when the body equals "YES", and
    then the indicator is shown: "hidden" is removed from its class list.
    It takes the NO branch exactly when the body equals "NO", and then the
    document and the alerts stay as they are.  Every other body is not
    accepted as a status: exactly those bodies raise the alert.  On a page
    whose indicator is hidden the three cases can be told apart by what the
    handler has done: the indicator is shown iff the body is "YES", and it
    stays hidden without an alert iff the body is "NO". *)
Theorem status_body_two_values body :
  (branch_of body = YesBranch ↔ body = "YES") ∧
  (branch_of body = NoBranch ↔ body = "NO") ∧
  (branch_of body = ErrorBranch ↔ body ≠ "YES" ∧ body ≠ "NO") ∧
  (∀ b cl, document b !! "flash" = Some cl →
     (body = "YES" →
        document (exec (onload body) b) !! "flash" = Some (tokens_remove "hidden" cl) ∧
        ("hidden" ∉ tokens_remove "hidden" cl) ∧
        alerts (exec (onload body) b) = alerts b) ∧
     (body = "NO" →
        document (exec (onload body) b) = document b ∧
        alerts (exec (onload body) b) = alerts b) ∧
     ("hidden" ∈ cl →
        (body = "YES" ↔
           ∃ cl', document (exec (onload body) b) !! "flash" = Some cl' ∧ "hidden" ∉ cl') ∧
        (body = "NO" ↔
           document (exec (onload body) b) !! "flash" = Some cl ∧
           alerts (exec (onload body) b) = alerts b))) ∧
  (∀ b, body ≠ "YES" ∧ body ≠ "NO" ↔
        alerts (exec (onload body) b) = alerts b ++ [error_alert]).
Proof.
  assert (Halerts : ∀ b, body ≠ "YES" ∧ body ≠ "NO" ↔
                         alerts (exec (onload body) b) = alerts b ++ [error_alert]).
  { intros b. rewrite onload_alerts. unfold is_unknown.
    destruct (branch_of body) eqn:Hb.
    - apply branch_of_yes in Hb as ->. split; [by intros [? _]|].
      by intros ?%app_inv_head.
    - apply branch_of_no in Hb as ->. split; [by intros [_ ?]|].
      by intros ?%app_inv_head.
    - by apply branch_of_error in Hb. }
  assert (Hquiet : ∀ b, body = "YES" ∨ body = "NO" →
                        alerts (exec (onload body) b) = alerts b).
  { intros b Hyn. rewrite onload_alerts. unfold is_unknown.
    destruct (branch_of body) eqn:Hb; rewrite ?app_nil_r; try done.
    apply branch_of_error in Hb as [Hy Hn]. by destruct Hyn. }
  assert (Hhidden : ∀ cl, "hidden" ∉ tokens_remove "hidden" cl).
  { intros cl. unfold tokens_remove. rewrite list_elem_of_filter. by intros [? _]. }
  split; [apply branch_of_yes|]. split; [apply branch_of_no|].
  split; [apply branch_of_error|]. split; [|done].
  intros b cl Hf.
  assert (Hyes : body = "YES" →
                 document (exec (onload body) b) !! "flash"
                 = Some (tokens_remove "hidden" cl)).
  { intros ->. unfold exec. rewrite (onload_yes _ _ Hf). cbn. apply lookup_insert_eq. }
  split; [|split].
  - intros Hy. split; [by apply Hyes|]. split; [done|]. apply Hquiet. by left.
  - intros ->. split; [by apply onload_document|]. apply Hquiet. by right.
  - intros Hin. split; split.
    + intros Hy. eexists. split; [by apply Hyes|done].
    + intros (cl' & Hcl' & Hnot). destruct (decide (body = "YES")) as [|Hy]; [done|].
      rewrite onload_document in Hcl' by done. congruence.
    + intros ->. split; [by rewrite onload_document|]. apply Hquiet. by right.
    + intros [Hdoc Hal]. destruct (decide (body = "YES")) as [Hy|Hy].
      { rewrite (Hyes Hy) in Hdoc. injection Hdoc as Hdoc.
        exfalso. apply (Hhidden cl). by rewrite Hdoc. }
      destruct (decide (body = "NO")) as [|Hn]; [done|].
      exfalso. assert (Ha : body ≠ "YES" ∧ body ≠ "NO") by done.
      apply (Halerts b) in Ha. rewrite Hal in Ha.
      rewrite <- (app_nil_r (alerts b)) in Ha at 1. by apply app_inv_head in Ha.
Qed.

End CheckIndexingRuns.

(* ===================================================================== *)
(** ** Properties of the index engine and the coordinator *)
(* ===================================================================== *)

Section EngineProperties.

Import Engine.
Local Open Scope nat_scope.

Variable parse : Dialect → string → option (list string).

Implicit Types (t : Table) (cfg : Config) (file : string) (idx : Index).

(** *** The storage accessor: rows and offsets *)

Lemma physical_rows_nonempty file :
  Forall (λ r, 0 < String.length r) (physical_rows file).
Proof.
  induction file as [|c rest IH]; cbn; [constructor|].
  case_decide.
  - constructor; [cbn; lia|done].
  - destruct (physical_rows rest) as [|r rs].
    + constructor; [cbn; lia|constructor].
    + inversion IH; subst. constructor; [cbn; lia|done].
Qed.

Lemma with_offsets_ge off rows :
  Forall (λ x, off ≤ x.1) (with_offsets off rows).
Proof.
  revert off. induction rows as [|r rs IH]; intros off; cbn; constructor; [done|].
  eapply Forall_impl; [apply IH|]. cbn. intros; lia.
Qed.

Lemma with_offsets_sorted off rows :
  Forall (λ r, 0 < String.length r) rows →
  StronglySorted earlier (with_offsets off rows).
Proof.
  intros Hne. revert off. induction Hne as [|r rs Hr Hrs IH]; intros off; cbn.
  - constructor.
  - constructor; [apply IH|].
    eapply Forall_impl; [apply with_offsets_ge|]. unfold earlier. cbn. intros; lia.
Qed.

(** Offsets grow along the file. *)
Lemma stream_sorted file : StronglySorted earlier (stream file).
Proof. apply with_offsets_sorted, physical_rows_nonempty. Qed.

(** The rows of the stream put end to end are the file. *)
Lemma physical_rows_concat file :
  foldr String.append EmptyString (physical_rows file) = file.
Proof.
  induction file as [|c rest IH]; cbn; [done|].
  case_decide.
  - cbn. by rewrite IH.
  - destruct (physical_rows rest) as [|r rs]; cbn in *; by rewrite <- IH.
Qed.

(** *** The in-progress index *)

Lemma process_row_entry cfg idx r :
  process_row parse cfg idx r = idx ++ option_list (entry_of parse cfg r).
Proof.
  unfold process_row, entry_of.
  destruct (classify parse cfg r.2); cbn; by rewrite ?app_nil_r.
Qed.

Lemma foldl_process_row cfg idx rs :
  foldl (process_row parse cfg) idx rs = idx ++ omap (entry_of parse cfg) rs.
Proof.
  revert idx. induction rs as [|r rs IH]; intros idx; cbn.
  - by rewrite app_nil_r.
  - rewrite IH, process_row_entry.
    destruct (entry_of parse cfg r); cbn; by rewrite <- ?app_assoc, ?app_nil_r.
Qed.

Lemma built_index_entries cfg file :
  built_index parse cfg file = omap (entry_of parse cfg) (stream file).
Proof. unfold built_index. by rewrite foldl_process_row. Qed.

Lemma entry_of_offset cfg r e :
  entry_of parse cfg r = Some e →
  entry_offset e = r.1 ∧ classify parse cfg r.2 = Included (entry_key e).
Proof.
  unfold entry_of. destruct (classify parse cfg r.2); intros [= <-]; done.
Qed.

(** No entry for an offset that no row of the list has. *)
Lemma entries_at_other_offset cfg rs off :
  Forall (λ r, r.1 ≠ off) rs →
  filter (λ e, entry_offset e = off) (omap (entry_of parse cfg) rs) = [].
Proof.
  induction 1 as [|r rs Hr _ IH]; cbn; [done|].
  destruct (entry_of parse cfg r) as [e|] eqn:He; [|done].
  apply entry_of_offset in He as [Ho _].
  rewrite filter_cons_False by (cbn; congruence). done.
Qed.

(** The entries at the offset of a row are what that row contributes. *)
Lemma entries_at_row_offset cfg rs r :
  StronglySorted earlier rs → r ∈ rs →
  filter (λ e, entry_offset e = r.1) (omap (entry_of parse cfg) rs)
  = option_list (entry_of parse cfg r).
Proof.
  induction 1 as [|r0 rs Hs IH Hall]; intros Hin; [by apply elem_of_nil in Hin|].
  apply elem_of_cons in Hin as [->|Hin]; cbn.
  - assert (Hrest : filter (λ e, entry_offset e = r0.1) (omap (entry_of parse cfg) rs) = []).
    { apply entries_at_other_offset. eapply Forall_impl; [exact Hall|].
      unfold earlier. intros; lia. }
    destruct (entry_of parse cfg r0) as [e|] eqn:He; [|done].
    apply entry_of_offset in He as [Ho _].
    rewrite filter_cons_True by done. by rewrite Hrest.
  - assert (r0.1 < r.1) as Hlt by (rewrite Forall_forall in Hall; by apply Hall).
    destruct (entry_of parse cfg r0) as [e|] eqn:He; [|by apply IH].
    apply entry_of_offset in He as [Ho _].
    rewrite filter_cons_False by (cbn; lia). by apply IH.
Qed.

(** *** Lookup *)

Lemma enter_other_keys (m : gmap Key nat) es k :
  Forall (λ e, entry_key e ≠ k) es →
  foldl (λ m e, <[entry_key e := entry_offset e]> m) m es !! k = m !! k.
Proof.
  intros H. revert m. induction H as [|e es He _ IH]; intros m; cbn; [done|].
  rewrite IH. by rewrite lookup_insert_ne.
Qed.

(** The last entry of a key decides its lookup. *)
Lemma index_lookup_last es1 e es2 :
  Forall (λ e', entry_key e' ≠ entry_key e) es2 →
  index_lookup (es1 ++ e :: es2) (entry_key e) = Some (entry_offset e).
Proof.
  intros H. unfold index_lookup, index_map. rewrite foldl_app. cbn.
  rewrite enter_other_keys by done. apply lookup_insert_eq.
Qed.

(** *** The coordinator *)

Lemma coordinated_new prior : coordinated (new_table prior).
Proof. by destruct prior. Qed.

Lemma coordinated_request source cfg t :
  coordinated t → coordinated (request_build source cfg t).2.
Proof.
  unfold coordinated, request_build.
  destruct (state t) eqn:Hs, source as [file|]; cbn; rewrite ?Hs; try done;
    intros ->; by eexists.
Qed.

Lemma coordinated_step t : coordinated t → coordinated (build_step parse t).
Proof.
  intros Hc. unfold build_step.
  destruct (builds t) as [|b bs] eqn:Hb; [done|].
  unfold coordinated in Hc. rewrite Hb in Hc.
  destruct (state t) eqn:Hs; try done.
  destruct Hc as [b' [= Hb1 Hb2]]. subst bs.
  unfold coordinated. destruct (b_rest b); cbn; rewrite ?Hs; [done|by eexists].
Qed.

Lemma coordinated_cancel t : coordinated t → coordinated (cancel t).
Proof.
  unfold coordinated, cancel. destruct (state t) eqn:Hs; cbn; by rewrite ?Hs.
Qed.

Lemma coordinated_run evs t :
  coordinated t → coordinated (run_events parse evs t).
Proof.
  revert t. induction evs as [|e evs IH]; intros t Ht; [done|].
  cbn. apply IH. destruct e; cbn.
  - by apply coordinated_request.
  - by apply coordinated_step.
  - by apply coordinated_cancel.
Qed.

Lemma reachable_coordinated t : reachable parse t → coordinated t.
Proof. intros (prior & evs & ->). apply coordinated_run, coordinated_new. Qed.

Lemma coordinated_idle t :
  coordinated t → state t ≠ building → builds t = [].
Proof. unfold coordinated. by destruct (state t). Qed.

(** A builder that is alone in flight reads its rows and swaps its index
    in: one step per row and one for the swap. *)
Lemma run_builder cfg rs idx st act err :
  Nat.iter (S (length rs)) (build_step parse)
    (mkTable st act [mkBuilder cfg rs idx] err)
  = mkTable ready (Some (foldl (process_row parse cfg) idx rs)) [] None.
Proof.
  revert idx. induction rs as [|r rs IH]; intros idx; [done|].
  change (length (r :: rs)) with (S (length rs)).
  rewrite Nat.iter_succ_r. apply IH.
Qed.

Lemma build_ready t file cfg :
  coordinated t → state t ≠ building →
  build parse (Some file) cfg t
  = (Ok (mkSummary (length (stream file)) (length (built_index parse cfg file))),
     mkTable ready (Some (built_index parse cfg file)) [] None).
Proof.
  intros Hc Hs. pose proof (coordinated_idle _ Hc Hs) as Hb.
  unfold build, request_build. rewrite Hb.
  destruct (state t); try done; cbn [default];
    unfold summary; by rewrite run_builder.
Qed.

(** *** The claims *)

(** C7: on every table that can be reached, at most one build is in
    flight; while the table is building, a further build request fails
    with [BuildInProgress] and leaves the table, with the build in flight,
    exactly as it was (nothing is queued); of two requests in a row on a
    table that is not building, the first proceeds and the second is
    rejected. *)
Theorem at_most_one_build t source cfg :
  reachable parse t →
  length (builds t) ≤ 1 ∧
  (state t = building →
     length (builds t) = 1 ∧
     request_build source cfg t = (Err BuildInProgress, t)) ∧
  (state t ≠ building →
     ∀ file cfg',
       (request_build (Some file) cfg' t).1 = Ok () ∧
       length (builds (request_build (Some file) cfg' t).2) = 1 ∧
       request_build source cfg (request_build (Some file) cfg' t).2
       = (Err BuildInProgress, (request_build (Some file) cfg' t).2)).
Proof.
  intros Hr. apply reachable_coordinated in Hr.
  split; [|split].
  - unfold coordinated in Hr. destruct (state t); rewrite ?Hr; cbn; try lia.
    destruct Hr as [b ->]. cbn. lia.
  - intros Hs. unfold coordinated in Hr. rewrite Hs in Hr. destruct Hr as [b Hb].
    split; [by rewrite Hb|]. unfold request_build. by rewrite Hs.
  - intros Hs file cfg'. pose proof (coordinated_idle _ Hr Hs) as Hb.
    unfold request_build. rewrite Hb. by destruct (state t).
Qed.

(** C8: in the index that a completed build makes active, every row
    flagged [include] has exactly one entry, which maps the row's key to the
    row's offset, and no entry refers to a row flagged [skip] or
    [exclude]; every entry belongs to an [include] row of the dataset. *)
Theorem no_leak t file cfg idx :
  reachable parse t →
  state t ≠ building →
  active (build parse (Some file) cfg t).2 = Some idx →
  state (build parse (Some file) cfg t).2 = ready ∧
  (∀ r, r ∈ stream file → flag parse cfg r.2 = include →
     ∃ k, classify parse cfg r.2 = Included k ∧
          filter (λ e, entry_offset e = r.1) idx = [mkEntry k r.1]) ∧
  (∀ r, r ∈ stream file → flag parse cfg r.2 ≠ include →
     ∀ e, e ∈ idx → entry_offset e ≠ r.1) ∧
  (∀ e, e ∈ idx →
     ∃ r, r ∈ stream file ∧ r.1 = entry_offset e ∧
          classify parse cfg r.2 = Included (entry_key e)).
Proof.
  intros Hr Hs. apply reachable_coordinated in Hr.
  rewrite (build_ready _ _ _ Hr Hs). cbn. intros [= <-].
  rewrite built_index_entries. split; [done|]. split; [|split].
  - intros r Hin Hf. unfold flag in Hf.
    destruct (classify parse cfg r.2) as [k| |] eqn:Hc; try done.
    exists k. split; [done|].
    rewrite (entries_at_row_offset _ _ _ (stream_sorted file) Hin).
    unfold entry_of. by rewrite Hc.
  - intros r Hin Hf e He Ho.
    assert (e ∈ filter (λ e, entry_offset e = r.1) (omap (entry_of parse cfg) (stream file)))
      as Hmem by (by apply list_elem_of_filter).
    rewrite (entries_at_row_offset _ _ _ (stream_sorted file) Hin) in Hmem.
    unfold entry_of, flag in *.
    destruct (classify parse cfg r.2); cbn in *; try done; by apply elem_of_nil in Hmem.
  - intros e He. apply list_elem_of_omap in He as (r & Hin & He).
    apply entry_of_offset in He as [Ho Hc]. by exists r.
Qed.

(** C9: when several [include] rows derive the same key, lookup of that
    key in the completed index gives the offset of the last of them in
    file order. *)
Theorem last_write_wins t file cfg r k :
  reachable parse t →
  state t ≠ building →
  r ∈ stream file →
  classify parse cfg r.2 = Included k →
  (∀ r', r' ∈ stream file → earlier r r' → classify parse cfg r'.2 ≠ Included k) →
  lookup k (build parse (Some file) cfg t).2 = Ok (Some r.1).
Proof.
  intros Hr Hs Hin Hc Hlast. apply reachable_coordinated in Hr.
  rewrite (build_ready _ _ _ Hr Hs). unfold lookup. cbn. f_equal.
  rewrite built_index_entries.
  pose proof (stream_sorted file) as Hsorted.
  apply list_elem_of_split in Hin as (l1 & l2 & Hsplit).
  rewrite Hsplit in Hsorted |- *.
  rewrite omap_app. cbn. unfold entry_of at 2. rewrite Hc.
  apply (index_lookup_last _ (mkEntry k r.1)). cbn.
  apply Forall_forall. intros e He Hk.
  apply list_elem_of_omap in He as (r' & Hin' & He).
  apply entry_of_offset in He as [Ho Hc'].
  apply (Hlast r').
  - rewrite Hsplit. apply elem_of_app. right. by right.
  - apply StronglySorted_app_1_r, StronglySorted_cons in Hsorted as [Hall _].
    rewrite Forall_forall in Hall. by apply Hall.
  - by rewrite Hc', Hk.
Qed.

(** C10: building twice from the same dataset and configuration gives the
    same index both times: the same entries, hence the same answer to
    every lookup, and the same summary. *)
Theorem rebuild_idempotent t file cfg :
  reachable parse t →
  state t ≠ building →
  ∃ idx,
    active (build parse (Some file) cfg t).2 = Some idx ∧
    active (build parse (Some file) cfg (build parse (Some file) cfg t).2).2 = Some idx ∧
    (build parse (Some file) cfg (build parse (Some file) cfg t).2).1
    = (build parse (Some file) cfg t).1 ∧
    ∀ k, lookup k (build parse (Some file) cfg (build parse (Some file) cfg t).2).2
         = lookup k (build parse (Some file) cfg t).2.
Proof.
  intros Hr Hs. apply reachable_coordinated in Hr.
  rewrite (build_ready _ _ _ Hr Hs). cbn [snd fst].
  rewrite build_ready by done.
  exists (built_index parse cfg file). done.
Qed.

End EngineProperties.

(* ===================================================================== *)
(** ** Scenarios *)
(* ===================================================================== *)

Section Scenarios.

Import Engine.
Local Open Scope nat_scope.

(** The scenario of the specification: the header and the row [xx] are
    skipped, row 2 is excluded, rows 1 and 3 are indexed. *)
Example scenario_flags :
  (λ r, flag simple_parse scenario_config r.2) <$> stream scenario_file
  = [skip; include; exclude; skip; include].
Proof. vm_compute. reflexivity. Qed.

Example scenario_index :
  active (build simple_parse (Some scenario_file) scenario_config (new_table None)).2
  = Some [mkEntry ["1"%string] 8; mkEntry ["3"%string] 22].
Proof. vm_compute. reflexivity. Qed.

Example scenario_scan :
  scan (build simple_parse (Some scenario_file) scenario_config (new_table None)).2
  = Ok [8; 22].
Proof. vm_compute. reflexivity. Qed.

Example scenario_duplicate_keys :
  lookup ["1"%string]
    (build simple_parse (Some duplicate_file) scenario_config (new_table None)).2
  = Ok (Some 14).
Proof. vm_compute. reflexivity. Qed.

Example scenario_not_ready :
  lookup ["1"%string] (new_table None) = Err NotReady.
Proof. reflexivity. Qed.

(** Status polling along a build of three rows. *)
Example scenario_polling :
  (λ n, is_building
          (Nat.iter n (build_step simple_parse)
             (request_build (Some duplicate_file) scenario_config (new_table None)).2))
  <$> [0; 1; 2; 3; 4; 5]
  = [true; true; true; true; false; false].
Proof. vm_compute. reflexivity. Qed.

Lemma at_most_one_build_witness :
  reachable simple_parse building_table ∧
  length (builds building_table) ≤ 1 ∧
  (state building_table = building →
     length (builds building_table) = 1 ∧
     request_build (Some duplicate_file) scenario_config building_table
     = (Err BuildInProgress, building_table)).
Proof.
  assert (Hr : reachable simple_parse building_table).
  { exists None, [EvRequest (Some scenario_file) scenario_config; EvStep]. reflexivity. }
  split; [exact Hr|].
  pose proof (at_most_one_build simple_parse building_table (Some duplicate_file)
                scenario_config Hr) as (Hle & Hrej & _).
  split; [exact Hle|exact Hrej].
Defined.

Lemma no_leak_witness :
  reachable simple_parse (new_table None) ∧
  state (new_table None) ≠ building ∧
  active (build simple_parse (Some scenario_file) scenario_config (new_table None)).2
  = Some [mkEntry ["1"%string] 8; mkEntry ["3"%string] 22] ∧
  (∀ r, r ∈ stream scenario_file → flag simple_parse scenario_config r.2 ≠ include →
     ∀ e, e ∈ [mkEntry ["1"%string] 8; mkEntry ["3"%string] 22] → entry_offset e ≠ r.1).
Proof.
  assert (Hr : reachable simple_parse (new_table None)).
  { exists None, []. reflexivity. }
  assert (Hs : state (new_table None) ≠ building) by discriminate.
  assert (Ha : active (build simple_parse (Some scenario_file) scenario_config
                         (new_table None)).2
               = Some [mkEntry ["1"%string] 8; mkEntry ["3"%string] 22]).
  { vm_compute. reflexivity. }
  split; [exact Hr|]. split; [exact Hs|]. split; [exact Ha|].
  exact (proj1 (proj2 (proj2 (no_leak simple_parse _ _ _ _ Hr Hs Ha)))).
Defined.

Lemma last_write_wins_witness :
  reachable simple_parse (new_table None) ∧
  state (new_table None) ≠ building ∧
  (14, line "1,yes") ∈ stream duplicate_then_other_file ∧
  classify simple_parse scenario_config (line "1,yes") = Included ["1"%string] ∧
  lookup ["1"%string]
    (build simple_parse (Some duplicate_then_other_file) scenario_config
       (new_table None)).2
  = Ok (Some 14).
Proof.
  assert (Hr : reachable simple_parse (new_table None)).
  { exists None, []. reflexivity. }
  assert (Hs : state (new_table None) ≠ building) by discriminate.
  assert (Hst : stream duplicate_then_other_file
                = [(0, line "id,flag"); (8, line "1,yes"); (14, line "1,yes");
                   (20, line "2,yes")]).
  { vm_compute. reflexivity. }
  assert (Hin : (14, line "1,yes") ∈ stream duplicate_then_other_file).
  { rewrite Hst. do 2 right. left. }
  assert (Hc : classify simple_parse scenario_config (line "1,yes")
               = Included ["1"%string]).
  { vm_compute. reflexivity. }
  assert (Hlast : ∀ r', r' ∈ stream duplicate_then_other_file →
                        earlier (14, line "1,yes") r' →
                        classify simple_parse scenario_config r'.2
                        ≠ Included ["1"%string]).
  { intros r' Hin' Hlt. rewrite Hst in Hin'. unfold earlier in Hlt.
    repeat (apply elem_of_cons in Hin' as [->|Hin']); cbn in Hlt; try lia.
    - vm_compute. discriminate.
    - by apply elem_of_nil in Hin'. }
  split; [exact Hr|]. split; [exact Hs|]. split; [exact Hin|]. split; [exact Hc|].
  exact (last_write_wins simple_parse (new_table None) duplicate_then_other_file
           scenario_config (14, line "1,yes") ["1"%string] Hr Hs Hin Hc Hlast).
Defined.

Lemma rebuild_idempotent_witness :
  reachable simple_parse (new_table None) ∧
  state (new_table None) ≠ building ∧
  ∃ idx,
    active (build simple_parse (Some scenario_file) scenario_config (new_table None)).2
    = Some idx ∧
    active (build simple_parse (Some scenario_file) scenario_config
              (build simple_parse (Some scenario_file) scenario_config
                 (new_table None)).2).2
    = Some idx.
Proof.
  assert (Hr : reachable simple_parse (new_table None)).
  { exists None, []. reflexivity. }
  assert (Hs : state (new_table None) ≠ building) by discriminate.
  split; [exact Hr|]. split; [exact Hs|].
  destruct (rebuild_idempotent simple_parse (new_table None) scenario_file
              scenario_config Hr Hs) as (idx & H1 & H2 & _).
  exists idx. split; [exact H1|exact H2].
Defined.

End Scenarios.
